(** * PolyjuiceGenerator: a shallow embedding of
      [PolyjuiceGenerator/PolyjuiceGenerator.py]

    The script reads one column of a csv file, asks the Polyjuice model for
    one perturbation of every sentence and writes the edits to a csv file.

    The embedding keeps the shape of the Python code.  Every method is a
    computation over an explicit state that returns the final state together
    with an outcome: a value, a process exit ([exit(1)]) or a raised
    exception.  The state survives an exception, so that what was printed or
    written before a failure stays observable.

    What lies outside the script is kept abstract:
    - the Polyjuice model and the wall clock are a class [Environment] over
      an opaque state [E] (the model may be randomised, may fail, and may
      answer the same text differently on two calls);
    - the file system is a finite map from paths to entries; a csv file is
      held as its rows of cells, the first row being the column labels as
      pandas assigns them (quoting, label mangling, type inference and the
      like are pandas' business and are not modelled; every cell is a
      string);
    - [tqdm] only draws a progress bar on stderr and is transparent for the
      iteration; stderr is not modelled. *)

From Stdlib Require Import ZArith Ascii String.
From stdpp Require Import base gmap strings list fin_maps pretty.

Set Default Proof Using "Type".

(** ** Outcomes and the state-and-failure monad *)

Inductive exn : Type :=
| AttributeError (msg : string)
| KeyError (key : string)
| ValueError (msg : string)
| TypeError (msg : string)
| OSError (path : string)
| EmptyDataError
| LibraryError (msg : string).

Inductive result (A : Type) : Type :=
| Ok (a : A)
| Exit (code : Z)
| Raise (e : exn).
Arguments Ok {A} a.
Arguments Exit {A} code.
Arguments Raise {A} e.

Definition M (S A : Type) : Type := S → S * result A.

Definition ret {S A} (a : A) : M S A := λ s, (s, Ok a).

Definition bind {S A B} (m : M S A) (k : A → M S B) : M S B :=
  λ s, match m s with
       | (s', Ok a) => k a s'
       | (s', Exit c) => (s', Exit c)
       | (s', Raise e) => (s', Raise e)
       end.

Definition exit {S A} (code : Z) : M S A := λ s, (s, Exit code).
Definition raise {S A} (e : exn) : M S A := λ s, (s, Raise e).

Declare Scope py_scope.
Delimit Scope py_scope with py.
Notation "x <- c ;; k" := (bind c (λ x, k))
  (at level 100, c at next level, right associativity) : py_scope.
Notation "c ;; k" := (bind c (λ _, k))
  (at level 100, right associativity) : py_scope.
Open Scope py_scope.

(** ** Strings of the script *)

Definition nl : string := String "010"%char EmptyString.

Fixpoint str_repeat (s : string) (n : nat) : string :=
  match n with
  | O => EmptyString
  | S n' => s +:+ str_repeat s n'
  end.

(** ** The world outside the process *)

Definition row : Type := list string.

Inductive entry : Type :=
| File (rows : list row)
| Dir.

Inductive event : Type :=
| EvPrint (line : string)
| EvRead (path : string)
| EvWrite (path : string)
| EvLoadModel (path : string) (on_cuda : bool)
| EvPerturb (text : string) (num_perturbations : Z).

Record World (E : Type) : Type := mkWorld {
  fs : gmap string entry;
  trace : list event;
  cuda_available : bool;
  can_write : string → bool;
  ext : E
}.
Arguments mkWorld {E}.
Arguments fs {E}.
Arguments trace {E}.
Arguments cuda_available {E}.
Arguments can_write {E}.
Arguments ext {E}.

Definition log {E} (ev : event) (w : World E) : World E :=
  mkWorld (fs w) (trace w ++ [ev]) (cuda_available w) (can_write w) (ext w).

Definition set_fs {E} (f : gmap string entry) (w : World E) : World E :=
  mkWorld f (trace w) (cuda_available w) (can_write w) (ext w).

Definition set_ext {E} (e : E) (w : World E) : World E :=
  mkWorld (fs w) (trace w) (cuda_available w) (can_write w) e.

(** The lines written to stdout so far, oldest first. *)
Definition console {E} (w : World E) : list string :=
  omap (λ ev, match ev with EvPrint l => Some l | _ => None end) (trace w).

(** The paths written and the paths read so far. *)
Definition writes {E} (w : World E) : list string :=
  omap (λ ev, match ev with EvWrite p => Some p | _ => None end) (trace w).

Definition reads {E} (w : World E) : list string :=
  omap (λ ev, match ev with EvRead p => Some p | _ => None end) (trace w).

(** The requests the model received so far: the text and the number of
    perturbations asked for. *)
Definition requests {E} (w : World E) : list (string * Z) :=
  omap (λ ev, match ev with EvPerturb s n => Some (s, n) | _ => None end)
       (trace w).

(** The handle of a loaded model: what [Polyjuice(model_path=, is_cuda=)]
    was given. *)
Record Model : Type := mkModel {
  model_path : string;
  is_cuda : bool
}.

(** The external collaborators.  [polyjuice_load] is the constructor of the
    model, [polyjuice_perturb] its [perturb] method, [now] reads
    [datetime.now()] (in microseconds) and [str_timedelta] renders a
    difference of two readings. *)
Class Environment (E : Type) : Type := {
  polyjuice_load : string → bool → E → E * (exn + unit);
  polyjuice_perturb : Model → string → Z → E → E * (exn + list string);
  now : E → E * Z;
  str_timedelta : Z → string
}.

(** ** pandas *)

Definition DataFrame : Type := list (string * list string).

Definition cell (j : nat) (r : row) : string := nth j r EmptyString.

Definition frame_of_rows (header : row) (data : list row) : DataFrame :=
  imap (λ j name, (name, map (cell j) data)) header.

(** [df[col]] *)
Fixpoint getitem (df : DataFrame) (col : string) : option (list string) :=
  match df with
  | [] => None
  | (name, cells) :: rest =>
      if decide (name = col) then Some cells else getitem rest col
  end.

Definition nrows (df : DataFrame) : nat :=
  match df with
  | [] => 0
  | (_, cells) :: _ => length cells
  end.

(** The rows [to_csv] writes: the header line, then one line per record;
    with [index] every line starts with the row label. *)
Definition csv_rows (df : DataFrame) (index : bool) : list row :=
  let header := map fst df in
  let body := map (λ i, map (λ c, cell i (snd c)) df) (seq 0 (nrows df)) in
  if index
  then (EmptyString :: header) :: imap (λ i r, pretty i :: r) body
  else header :: body.

Section world_ops.
Context {E : Type} `{!Environment E}.

Definition print (line : string) : M (World E) unit :=
  λ w, (log (EvPrint line) w, Ok tt).

Definition os_path_exists (path : string) : M (World E) bool :=
  λ w, (w, Ok (bool_decide (is_Some (fs w !! path)))).

Definition torch_cuda_is_available : M (World E) bool :=
  λ w, (w, Ok (cuda_available w)).

(** [pd.read_csv(path)] *)
Definition read_csv (path : string) : M (World E) DataFrame :=
  λ w, match fs w !! path with
       | None => (w, Raise (OSError path))
       | Some Dir => (w, Raise (OSError path))
       | Some (File []) => (log (EvRead path) w, Raise EmptyDataError)
       | Some (File (header :: data)) =>
           (log (EvRead path) w, Ok (frame_of_rows header data))
       end.

(** [pd.DataFrame({name: values})]: a scalar value without an index is
    refused. *)
Definition DataFrame_of_dict {S} (name : string)
    (values : option (list string)) : M S DataFrame :=
  match values with
  | None =>
      raise (ValueError "If using all scalar values, you must pass an index")
  | Some cells => ret [(name, cells)]
  end.

(** [df.to_csv(path, index=index)] *)
Definition to_csv (df : DataFrame) (path : string) (index : bool)
    : M (World E) unit :=
  λ w, if can_write w path
       then (log (EvWrite path)
               (set_fs (<[path := File (csv_rows df index)]> (fs w)) w),
             Ok tt)
       else (w, Raise (OSError path)).

(** [Polyjuice(model_path=path, is_cuda=on_cuda)] *)
Definition Polyjuice (path : string) (on_cuda : bool) : M (World E) Model :=
  λ w, let w1 := log (EvLoadModel path on_cuda) w in
       match polyjuice_load path on_cuda (ext w1) with
       | (e, inl err) => (set_ext e w1, Raise err)
       | (e, inr _) => (set_ext e w1, Ok (mkModel path on_cuda))
       end.

(** [model.perturb(text, num_perturbations=n)] *)
Definition perturb (m : Model) (text : string) (n : Z)
    : M (World E) (list string) :=
  λ w, let w1 := log (EvPerturb text n) w in
       match polyjuice_perturb m text n (ext w1) with
       | (e, inl err) => (set_ext e w1, Raise err)
       | (e, inr candidates) => (set_ext e w1, Ok candidates)
       end.

Definition datetime_now : M (World E) Z :=
  λ w, let (e, t) := now (ext w) in (set_ext e w, Ok t).
End world_ops.

(** ** The class [PolyjuiceGenerator] *)

Record PolyjuiceGenerator : Type := mkGenerator {
  sentences : list string;
  cuda : bool;
  model : Model;
  dest_csv : string;
  counter_sentences : option (list string)
}.

(** A method runs on the object it is called on and on the world. *)
Record State (E : Type) : Type := mkState {
  self : PolyjuiceGenerator;
  world : World E
}.
Arguments mkState {E}.
Arguments self {E}.
Arguments world {E}.

(** What [argparse] hands to [main]: both required options are strings,
    [dest_csv] is [None] when [-d] is absent, and [cuda] comes from a
    [store_true] action. *)
Module Namespace.
Record t : Type := mk {
  source_csv : string;
  source_col : string;
  dest_csv : option string;
  cuda : bool
}.
End Namespace.

(** What the user typed, option by option (splitting [sys.argv] into
    options is [argparse]'s work).  Only command lines made of the four
    declared options are represented: [-h], which prints the usage and
    leaves with status 0, and unrecognised or malformed arguments, which
    [argparse] refuses, are outside. *)
Record CommandLine : Type := mkCommandLine {
  opt_source_csv : option string;
  opt_source_col : option string;
  opt_dest_csv : option string;
  flag_cuda : bool
}.

(** [self.counter_sentences = c] *)
Definition with_counter (g : PolyjuiceGenerator) (c : option (list string))
    : PolyjuiceGenerator :=
  mkGenerator (sentences g) (cuda g) (model g) (dest_csv g) c.

(** What calling [append] on [None] raises. *)
Definition NoneType_append : exn :=
  AttributeError "'NoneType' object has no attribute 'append'".

(** [perturbations[0] if perturbations else s] *)
Definition first_or (perturbations : list string) (s : string) : string :=
  match perturbations with
  | p :: _ => p
  | [] => s
  end.

Section generator.
Context {E : Type} `{!Environment E}.

Definition on_world {A} (m : M (World E) A) : M (State E) A :=
  λ st, let (w, r) := m (world st) in (mkState (self st) w, r).

Definition get_self : M (State E) PolyjuiceGenerator :=
  λ st, (st, Ok (self st)).

Definition with_self {A} (g : PolyjuiceGenerator) (m : M (State E) A)
    : M (World E) A :=
  λ w, let (st, r) := m (mkState g w) in (world st, r).

Definition __init__ (source_csv source_col dest_csv : option string)
    (cuda : option bool) : M (World E) PolyjuiceGenerator :=
  match source_csv with
  | None => print "[ERROR]: source_csv must be specified" ;; exit 1
  | Some path =>
      found <- os_path_exists path ;;
      if negb found
      then print ("[ERROR]: file " +:+ path +:+ " does not exist") ;; exit 1
      else
        match source_col with
        | None => print "[ERROR]: source_col must be specified" ;; exit 1
        | Some col =>
            df <- read_csv path ;;
            sents <- match getitem df col with
                     | Some cells => ret cells
                     | None => raise (KeyError col)
                     end ;;
            use_cuda <- match cuda with
                        | None => torch_cuda_is_available
                        | Some b => ret b
                        end ;;
            m <- Polyjuice "uw-hai/polyjuice" use_cuda ;;
            ret (mkGenerator sents use_cuda m
                   (default "polyjuice_edits.csv" dest_csv) None)
        end
  end.

(** [self.counter_sentences.append(x)]: [None] has no [append]. *)
Definition counter_sentences_append (x : string) : M (State E) unit :=
  λ st,
    match counter_sentences (self st) with
    | None => (st, Raise NoneType_append)
    | Some l =>
        (mkState (with_counter (self st) (Some (l ++ [x]))) (world st), Ok tt)
    end.

(** The body of [for s in tqdm(self.sentences)]. *)
Fixpoint for_each_sentence (ss : list string) : M (State E) unit :=
  match ss with
  | [] => ret tt
  | s :: rest =>
      g <- get_self ;;
      perturbations <- on_world (perturb (model g) s 1) ;;
      counter_sentences_append (first_or perturbations s) ;;
      for_each_sentence rest
  end.

Definition generate_counterfactuals : M (State E) unit :=
  on_world (print "[INFO]: Generating Counterfactuals...") ;;
  g <- get_self ;;
  for_each_sentence (sentences g).

Definition export_to_csv : M (State E) unit :=
  g <- get_self ;;
  on_world (print ("[INFO]: Exporting counterfactuals to "
                     +:+ dest_csv g +:+ "...")) ;;
  counter_df <- DataFrame_of_dict "counter_sents" (counter_sentences g) ;;
  on_world (to_csv counter_df (dest_csv g) false).

(** [zip(self.sentences, self.counter_sentences)] *)
Definition zip_sentences : M (State E) (list (string * string)) :=
  g <- get_self ;;
  match counter_sentences g with
  | None => raise (TypeError "'NoneType' object is not iterable")
  | Some l => ret (zip (sentences g) l)
  end.

Definition pair_line (s : string * string) : string :=
  "Original: " +:+ s.1 +:+ nl +:+ nl +:+ "Counter: " +:+ s.2 +:+ nl.

Fixpoint print_pairs (ps : list (string * string)) : M (State E) unit :=
  match ps with
  | [] => ret tt
  | s :: rest =>
      on_world (print (pair_line s)) ;;
      on_world (print (str_repeat "=" 100)) ;;
      print_pairs rest
  end.

Definition pipeline (debug : bool) : M (State E) unit :=
  if debug
  then generate_counterfactuals ;;
       ps <- zip_sentences ;;
       print_pairs ps
  else generate_counterfactuals ;;
       export_to_csv.

(** [argparse] leaves with status 2 when a required option is missing. *)
Definition parse_input (args : CommandLine) : M (World E) Namespace.t :=
  match opt_source_csv args, opt_source_col args with
  | Some s, Some c => ret (Namespace.mk s c (opt_dest_csv args) (flag_cuda args))
  | _, _ => exit 2
  end.

(** The constructor call of [main]. *)
Definition poly_generator (args : Namespace.t)
    : M (World E) PolyjuiceGenerator :=
  __init__ (Some (Namespace.source_csv args))
           (Some (Namespace.source_col args))
           (Namespace.dest_csv args)
           (Some (Namespace.cuda args)).

Definition main (args : Namespace.t) : M (World E) unit :=
  start_time <- datetime_now ;;
  g <- poly_generator args ;;
  with_self g (pipeline false) ;;
  end_time <- datetime_now ;;
  print (nl +:+ nl +:+ "Script execution time: "
           +:+ str_timedelta (end_time - start_time)).

(** [if __name__ == '__main__'] *)
Definition script (argv : CommandLine) : M (World E) unit :=
  ARG <- parse_input argv ;;
  main ARG.
End generator.

(** ** Vocabulary of the statements *)

(** The events and exceptions the methods produce. *)
Definition generating : event :=
  EvPrint "[INFO]: Generating Counterfactuals...".

Definition exporting (dest : string) : event :=
  EvPrint ("[INFO]: Exporting counterfactuals to " +:+ dest +:+ "...").

Definition scalar_values : exn :=
  ValueError "If using all scalar values, you must pass an index".

(** The events of the debug loop of [pipeline] for a list of pairs. *)
Definition pair_events (ps : list (string * string)) : list event :=
  flat_map (λ p, [EvPrint (pair_line p); EvPrint (str_repeat "=" 100)]) ps.

(** [answers m e ss cs e']: from the external state [e] the model [m]
    answers the requests for one perturbation of each of [ss], in this
    order and without raising, with the candidate lists [cs], and is left in
    state [e']. *)
Inductive answers {E : Type} `{!Environment E} (m : Model)
    : E → list string → list (list string) → E → Prop :=
| answers_nil e : answers m e [] [] e
| answers_cons e s ss c cs e1 e2 :
    polyjuice_perturb m s 1 e = (e1, inr c) →
    answers m e1 ss cs e2 →
    answers m e (s :: ss) (c :: cs) e2.

(** The fields of the object that are fixed at construction. *)
Definition same_config (g g' : PolyjuiceGenerator) : Prop :=
  sentences g' = sentences g ∧ cuda g' = cuda g ∧
  model g' = model g ∧ dest_csv g' = dest_csv g.

(** ** A deterministic stand-in for the model, and concrete worlds *)

Inductive stub : Type := Stub (calls : nat).

#[local] Instance stub_environment : Environment stub := {|
  polyjuice_load := λ _ _ e, (e, inr tt);
  polyjuice_perturb := λ _ text _ '(Stub n),
    (Stub (S n),
     inr (if decide (text = "The movie was great")
          then ["The movie was terrible"] else []));
  now := λ '(Stub n), (Stub n, Z.of_nat n);
  str_timedelta := λ _, "0:00:00"
|}.

Definition example_rows : list row :=
  [["text"]; ["The movie was great"]; ["I hate rain"]].

(** A machine with the input table of the end-to-end example, with or
    without an accelerator. *)
Definition example_world (gpu : bool) : World stub :=
  mkWorld {[ "in.csv" := File example_rows ]} [] gpu (λ _, true) (Stub 0).

Definition example_model : Model := mkModel "uw-hai/polyjuice" false.

(** The object the constructor builds on [example_world]. *)
Definition example_generator : PolyjuiceGenerator :=
  mkGenerator ["The movie was great"; "I hate rain"] false example_model
              "polyjuice_edits.csv" None.

Definition example_edits : list string :=
  ["The movie was terrible"; "I hate rain"].

(** The world and the object right after the constructor ran on
    [example_world gpu] with the device flag [flag]. *)
Definition constructed_world (gpu flag : bool) : World stub :=
  mkWorld {[ "in.csv" := File example_rows ]}
          [EvRead "in.csv"; EvLoadModel "uw-hai/polyjuice" flag]
          gpu (λ _, true) (Stub 0).

(** A one-sentence table for which the stand-in has no candidate. *)
Definition rain_world : World stub :=
  mkWorld {[ "rain.csv" := File [["text"]; ["I hate rain"]] ]} [] false
          (λ _, true) (Stub 0).

Definition rain_generator : PolyjuiceGenerator :=
  mkGenerator ["I hate rain"] false example_model "polyjuice_edits.csv" None.

(** An object holding the edits of the example, in a world where a stale
    file sits at the destination. *)
Definition ready_to_export : State stub :=
  mkState (with_counter example_generator (Some example_edits))
          (mkWorld {[ "polyjuice_edits.csv" := File [["stale"; "file"]] ]}
                   [] false (λ _, true) (Stub 2)).

(** An object whose [counter_sentences] was bound to an empty list by
    hand, which no code of the script does. *)
Definition patched_generator : PolyjuiceGenerator :=
  with_counter example_generator (Some []).

(** A stand-in for a model that breaks down on one sentence: it raises on
    [I hate rain] and returns one candidate for any other text. *)
Inductive flaky : Type := Flaky (calls : nat).

#[local] Instance flaky_environment : Environment flaky := {|
  polyjuice_load := λ _ _ e, (e, inr tt);
  polyjuice_perturb := λ _ text _ '(Flaky n),
    (Flaky (S n),
     if decide (text = "I hate rain")
     then inl (LibraryError "generation failed")
     else inr ["The movie was terrible"]);
  now := λ '(Flaky n), (Flaky n, Z.of_nat n);
  str_timedelta := λ _, "0:00:00"
|}.

(** The object of the example with an empty output list, on the machine of
    the flaky model. *)
Definition flaky_state : State flaky :=
  mkState (with_counter example_generator (Some []))
          (mkWorld {[ "in.csv" := File example_rows ]} [] false (λ _, true)
                   (Flaky 0)).


(** The object of the example on which [counter_sentences] already holds
    two entries that are not edits the stand-in would produce. *)
Definition stale_state : State stub :=
  mkState (with_counter example_generator
             (Some ["An old edit"; "Another old edit"]))
          (mkWorld {[ "in.csv" := File example_rows ]} [] false (λ _, true)
                   (Stub 0)).

(** The object of the example with an empty output list, before any
    generation. *)
Definition patched_state : State stub :=
  mkState patched_generator (constructed_world false false).

(** ** The loop of [generate_counterfactuals] *)

Ltac run :=
  unfold bind, ret, raise, exit, on_world, get_self, with_self, print,
    perturb, os_path_exists, torch_cuda_is_available, datetime_now; simpl.

Section loop_facts.
Context {E : Type} `{!Environment E}.
Implicit Types (st : State E) (w : World E) (ss : list string).

(** One turn of the loop on an object whose [counter_sentences] is a
    list: the model is asked once, and the edit is appended. *)
Lemma for_each_sentence_cons_list st s ss acc e1 c :
  counter_sentences (self st) = Some acc →
  polyjuice_perturb (model (self st)) s 1 (ext (world st)) = (e1, inr c) →
  for_each_sentence (s :: ss) st =
  for_each_sentence ss
    (mkState (with_counter (self st) (Some (acc ++ [first_or c s])))
             (set_ext e1 (log (EvPerturb s 1) (world st)))).
Proof.
  intros Hacc Hp. simpl. run. unfold counter_sentences_append. simpl.
  rewrite Hp. simpl. rewrite Hacc. reflexivity.
Qed.

(** On a list the loop goes through: it appends, in order, one edit per
    sentence and asks the model exactly once per sentence. *)
Lemma for_each_sentence_list ss : ∀ st acc cs e',
  counter_sentences (self st) = Some acc →
  answers (model (self st)) (ext (world st)) ss cs e' →
  for_each_sentence ss st =
  (mkState (with_counter (self st) (Some (acc ++ zip_with first_or cs ss)))
           (mkWorld (fs (world st))
                    (trace (world st) ++ map (λ s, EvPerturb s 1) ss)
                    (cuda_available (world st)) (can_write (world st)) e'),
   Ok tt).
Proof.
  induction ss as [|s ss IH]; intros st acc cs e' Hacc Hans.
  - inversion Hans; subst. simpl. unfold ret.
    destruct st as [g w], g, w; simpl in *; subst.
    rewrite !app_nil_r. reflexivity.
  - inversion Hans as [|? ? ? c cs' e1 ? Hp Hrest]; subst.
    rewrite (for_each_sentence_cons_list st s ss acc e1 c Hacc Hp).
    erewrite IH; [|reflexivity|exact Hrest].
    simpl. unfold with_counter. simpl.
    rewrite <- !app_assoc. reflexivity.
Qed.

(** On [None] the first turn fails: the model is asked about the first
    sentence, and then [append] is looked up on [None]. *)
Lemma for_each_sentence_None st s ss :
  counter_sentences (self st) = None →
  for_each_sentence (s :: ss) st =
  let w1 := log (EvPerturb s 1) (world st) in
  match polyjuice_perturb (model (self st)) s 1 (ext (world st)) with
  | (e1, inl err) => (mkState (self st) (set_ext e1 w1), Raise err)
  | (e1, inr _) => (mkState (self st) (set_ext e1 w1), Raise NoneType_append)
  end.
Proof.
  intros Hnone. simpl. run. unfold counter_sentences_append. simpl.
  destruct (polyjuice_perturb _ _ _ _) as [e1 [err|c]]; simpl;
    [reflexivity|]. rewrite Hnone. reflexivity.
Qed.

(** Whatever the outcome, the loop leaves the configuration of the object,
    the files, the console and the lists of reads and writes alone. *)
Lemma for_each_sentence_frame ss : ∀ st,
  let st' := (for_each_sentence ss st).1 in
  same_config (self st) (self st') ∧
  fs (world st') = fs (world st) ∧
  console (world st') = console (world st) ∧
  writes (world st') = writes (world st) ∧
  reads (world st') = reads (world st).
Proof.
  induction ss as [|s ss IH]; intros st; simpl.
  - unfold same_config. tauto.
  - run. unfold counter_sentences_append. simpl.
    destruct (polyjuice_perturb _ _ _ _) as [e1 [err|c]]; simpl.
    + unfold same_config, console, writes, reads; simpl.
      rewrite !omap_app; simpl. rewrite !app_nil_r. tauto.
    + destruct (counter_sentences (self st)) as [acc|] eqn:Hacc; simpl.
      * match goal with |- context [for_each_sentence ss ?s1] =>
          specialize (IH s1) end.
        simpl in IH. destruct IH as ((?&?&?&?)&Hfs&Hc&Hw&Hr).
        unfold same_config. simpl in *.
        rewrite Hfs, Hc, Hw, Hr. unfold console, writes, reads; simpl.
        rewrite !omap_app; simpl. rewrite !app_nil_r. tauto.
      * unfold same_config, console, writes, reads; simpl.
        rewrite !omap_app; simpl. rewrite !app_nil_r. tauto.
Qed.
End loop_facts.

(** ** The methods, one equation each *)

Section method_facts.
Context {E : Type} `{!Environment E}.
Implicit Types (st : State E) (w : World E) (g : PolyjuiceGenerator).

Lemma generate_counterfactuals_unfold st :
  generate_counterfactuals st =
  for_each_sentence (sentences (self st))
    (mkState (self st) (log generating (world st))).
Proof. reflexivity. Qed.

Lemma generate_counterfactuals_list st acc cs e' :
  counter_sentences (self st) = Some acc →
  answers (model (self st)) (ext (world st)) (sentences (self st)) cs e' →
  generate_counterfactuals st =
  (mkState
     (with_counter (self st)
        (Some (acc ++ zip_with first_or cs (sentences (self st)))))
     (mkWorld (fs (world st))
        (trace (world st) ++ generating
           :: map (λ s, EvPerturb s 1) (sentences (self st)))
        (cuda_available (world st)) (can_write (world st)) e'),
   Ok tt).
Proof.
  intros Hacc Hans. rewrite generate_counterfactuals_unfold.
  erewrite for_each_sentence_list; [|exact Hacc|exact Hans].
  simpl. rewrite <- app_assoc. reflexivity.
Qed.

Lemma generate_counterfactuals_frame st :
  let st' := (generate_counterfactuals st).1 in
  same_config (self st) (self st') ∧
  fs (world st') = fs (world st) ∧
  console (world st') =
    console (world st) ++ ["[INFO]: Generating Counterfactuals..."] ∧
  writes (world st') = writes (world st) ∧
  reads (world st') = reads (world st).
Proof.
  rewrite generate_counterfactuals_unfold.
  destruct (for_each_sentence_frame (sentences (self st))
              (mkState (self st) (log generating (world st))))
    as (Hcfg & Hfs & Hc & Hw & Hr).
  simpl in *. rewrite Hfs, Hc, Hw, Hr. unfold console, writes, reads. simpl.
  rewrite !omap_app. simpl. rewrite !app_nil_r. tauto.
Qed.

(** The lines the debug loop prints for a list of pairs. *)
Lemma print_pairs_unfold ps : ∀ st,
  print_pairs ps st =
  (mkState (self st)
     (mkWorld (fs (world st))
        (trace (world st)
           ++ flat_map (λ p, [EvPrint (pair_line p);
                              EvPrint (str_repeat "=" 100)]) ps)
        (cuda_available (world st)) (can_write (world st))
        (ext (world st))),
   Ok tt).
Proof.
  induction ps as [|p ps IH]; intros st.
  - destruct st as [g w], w. simpl. unfold ret. simpl.
    rewrite app_nil_r. reflexivity.
  - cbn [print_pairs]. unfold bind at 1, on_world at 1, print at 1.
    cbn [world self fst snd log]. unfold bind at 1, on_world at 1, print at 1.
    cbn [world self fst snd log]. rewrite IH.
    unfold log.
    cbn [world self fs trace cuda_available can_write ext flat_map].
    rewrite <- !app_assoc. reflexivity.
Qed.

Lemma pipeline_debug_unfold st :
  pipeline true st =
  match generate_counterfactuals st with
  | (st1, Ok _) =>
      match counter_sentences (self st1) with
      | None =>
          (st1, Raise (TypeError "'NoneType' object is not iterable"))
      | Some out => print_pairs (zip (sentences (self st1)) out) st1
      end
  | (st1, Exit c) => (st1, Exit c)
  | (st1, Raise e) => (st1, Raise e)
  end.
Proof.
  unfold pipeline. unfold bind at 1.
  destruct (generate_counterfactuals st) as [st1 [[]|c|e]]; try reflexivity.
  unfold zip_sentences, get_self, bind. cbn beta iota.
  destruct (counter_sentences (self st1)); reflexivity.
Qed.

Lemma pipeline_normal_unfold st :
  pipeline false st =
  match generate_counterfactuals st with
  | (st1, Ok _) => export_to_csv st1
  | (st1, Exit c) => (st1, Exit c)
  | (st1, Raise e) => (st1, Raise e)
  end.
Proof. reflexivity. Qed.

(** A column is found exactly when its name is in the header. *)
Lemma getitem_None (df : DataFrame) col :
  getitem df col = None ↔ col ∉ map fst df.
Proof.
  induction df as [|[name cells] df IH]; simpl.
  - split; [intros _; apply not_elem_of_nil|reflexivity].
  - rewrite not_elem_of_cons. destruct (decide (name = col)) as [->|Hne].
    + split; [discriminate|intros [? _]; congruence].
    + rewrite IH. split; [intros; split; congruence|tauto].
Qed.

Lemma map_fst_imap {A B} (f : nat → A → B) (l : list A) :
  map fst (imap (λ j x, (x, f j x)) l) = l.
Proof.
  revert f. induction l as [|x l IH]; intros f; [reflexivity|].
  simpl. f_equal. exact (IH (λ j, f (S j))).
Qed.

Lemma frame_of_rows_names header data :
  map fst (frame_of_rows header data) = header.
Proof. apply (map_fst_imap (λ j _, map (cell j) data)). Qed.

Lemma csv_rows_single name (l : list string) :
  csv_rows [(name, l)] false = [name] :: map (λ s, [s]) l.
Proof.
  unfold csv_rows. simpl. f_equal.
  apply list_eq. intros i. rewrite !list_lookup_fmap.
  destruct (l !! i) as [x|] eqn:Hi; simpl.
  - assert (i < length l)%nat as Hlt by (eapply lookup_lt_Some; eauto).
    rewrite lookup_seq_lt by exact Hlt. simpl. unfold cell.
    rewrite (nth_lookup_Some _ _ _ _ Hi). reflexivity.
  - apply lookup_ge_None in Hi. rewrite lookup_seq_ge by exact Hi.
    reflexivity.
Qed.

Lemma export_to_csv_unfold st :
  export_to_csv st =
  let dest := dest_csv (self st) in
  let w1 := log (exporting dest) (world st) in
  match counter_sentences (self st) with
  | None => (mkState (self st) w1, Raise scalar_values)
  | Some l =>
      if can_write (world st) dest
      then (mkState (self st)
              (log (EvWrite dest)
                 (set_fs (<[dest := File (["counter_sents"]
                                           :: map (λ s, [s]) l)]>
                            (fs (world st))) w1)),
            Ok tt)
      else (mkState (self st) w1, Raise (OSError dest))
  end.
Proof.
  unfold export_to_csv. run. unfold DataFrame_of_dict.
  destruct (counter_sentences (self st)) as [l|]; run; [|reflexivity].
  unfold to_csv. rewrite csv_rows_single. simpl.
  destruct (can_write (world st) (dest_csv (self st))); reflexivity.
Qed.

(** The constructor, read backwards: what a successful construction
    tells about its arguments, the world and the object. *)
Lemma init_Ok_inv (a b c : option string) (d : option bool) w w' g :
  __init__ a b c d w = (w', Ok g) →
  ∃ path col header data e1,
    a = Some path ∧ b = Some col ∧
    fs w !! path = Some (File (header :: data)) ∧
    getitem (frame_of_rows header data) col = Some (sentences g) ∧
    cuda g = match d with None => cuda_available w | Some flag => flag end ∧
    model g = mkModel "uw-hai/polyjuice" (cuda g) ∧
    dest_csv g = default "polyjuice_edits.csv" c ∧
    counter_sentences g = None ∧
    polyjuice_load "uw-hai/polyjuice" (cuda g) (ext w) = (e1, inr tt) ∧
    w' = set_ext e1 (log (EvLoadModel "uw-hai/polyjuice" (cuda g))
                       (log (EvRead path) w)).
Proof.
  unfold __init__. destruct a as [path|]; [|run; discriminate].
  run. destruct (fs w !! path) as [en|] eqn:Hfs; simpl;
    [|run; discriminate].
  destruct b as [col|]; [|discriminate].
  unfold read_csv. rewrite Hfs.
  destruct en as [[|header data]|]; try discriminate.
  destruct (getitem (frame_of_rows header data) col) as [cells|] eqn:Hcol;
    [|discriminate].
  unfold Polyjuice.
  destruct d as [flag|]; simpl;
    match goal with |- context [polyjuice_load ?p ?f ?e] =>
      destruct (polyjuice_load p f e) as [e1 [err|[]]] eqn:Hload
    end; try discriminate;
    intros [= <- <-]; exists path, col, header, data, e1; simpl;
    repeat split; assumption.
Qed.
End method_facts.

(** ** Generation on a freshly constructed object *)

Section fresh_object.
Context {E : Type} `{!Environment E}.

(** With [counter_sentences] still [None] and a sentence to treat,
    [generate_counterfactuals] raises during the first turn of the loop:
    the model's own exception if its first call fails, and otherwise the
    [AttributeError] of [None.append].  Nothing has been collected. *)
Lemma generate_counterfactuals_None (st : State E) s rest :
  counter_sentences (self st) = None →
  sentences (self st) = s :: rest →
  ∃ e1 e,
    generate_counterfactuals st =
    (mkState (self st)
       (set_ext e1 (log (EvPerturb s 1) (log generating (world st)))),
     Raise e) ∧
    ∀ e2 cands,
      polyjuice_perturb (model (self st)) s 1 (ext (world st))
        = (e2, inr cands) →
      e = NoneType_append.
Proof.
  intros Hnone Hss. rewrite generate_counterfactuals_unfold, Hss.
  rewrite for_each_sentence_None by exact Hnone. simpl.
  destruct (polyjuice_perturb _ _ _ _) as [e1 [err|c]].
  - exists e1, err. split; [reflexivity|]. intros ? ? [=].
  - exists e1, NoneType_append. split; [reflexivity|]. intros; reflexivity.
Qed.
End fresh_object.

(** C3.  For every generator the constructor returns with a non-empty
    sentence list, [counter_sentences] is [None], and the first call to
    [generate_counterfactuals] (in whatever world it is made) raises; when
    the model answers the first sentence, what is raised is the
    [AttributeError] of calling [append] on [None]; and
    [counter_sentences] is still [None] afterwards. *)
Theorem generate_counterfactuals_after_init_fails
    {E : Type} `{!Environment E}
    (source_csv source_col dest : option string) (flag : option bool)
    (w w' w1 : World E) (g : PolyjuiceGenerator) :
  __init__ source_csv source_col dest flag w = (w', Ok g) →
  sentences g ≠ [] →
  counter_sentences g = None ∧
  ∃ st' e,
    generate_counterfactuals (mkState g w1) = (st', Raise e) ∧
    counter_sentences (self st') = None ∧
    ∀ s rest e2 cands,
      sentences g = s :: rest →
      polyjuice_perturb (model g) s 1 (ext w1) = (e2, inr cands) →
      e = NoneType_append.
Proof.
  intros Hinit Hne.
  destruct (init_Ok_inv _ _ _ _ _ _ _ Hinit)
    as (_&_&_&_&_&_&_&_&_&_&_&_&Hnone&_).
  split; [exact Hnone|].
  destruct (sentences g) as [|s rest] eqn:Hss; [congruence|].
  destruct (generate_counterfactuals_None (mkState g w1) s rest Hnone Hss)
    as (e1 & e & Hrun & Hattr).
  eexists _, e. split; [exact Hrun|]. split; [exact Hnone|].
  intros s' rest' e2 cands [= <- <-] Hp. exact (Hattr e2 cands Hp).
Qed.

Lemma generate_counterfactuals_after_init_fails_witness :
  counter_sentences example_generator = None ∧
  ∃ st' e,
    generate_counterfactuals
      (mkState example_generator (constructed_world false false))
      = (st', Raise e) ∧
    counter_sentences (self st') = None ∧
    ∀ s rest e2 cands,
      sentences example_generator = s :: rest →
      polyjuice_perturb (model example_generator) s 1
        (ext (constructed_world false false)) = (e2, inr cands) →
      e = NoneType_append.
Proof.
  apply (generate_counterfactuals_after_init_fails
           (Some "in.csv") (Some "text") None (Some false)
           (example_world false) (constructed_world false false)).
  - vm_compute. reflexivity.
  - discriminate.
Defined.

(** Had [counter_sentences] been bound to an empty list, the loop would
    collect one edit per sentence, in order: the first candidate, or the
    sentence itself when there is none. *)
Lemma generate_counterfactuals_from_empty_list
    {E : Type} `{!Environment E} (st : State E) cs e' :
  counter_sentences (self st) = Some [] →
  answers (model (self st)) (ext (world st)) (sentences (self st)) cs e' →
  ∃ st',
    generate_counterfactuals st = (st', Ok tt) ∧
    counter_sentences (self st')
      = Some (zip_with first_or cs (sentences (self st))) ∧
    requests (world st')
      = requests (world st) ++ map (λ s, (s, 1%Z)) (sentences (self st)).
Proof.
  intros Hacc Hans.
  rewrite (generate_counterfactuals_list st [] cs e' Hacc Hans).
  eexists. split; [reflexivity|]. split; [reflexivity|].
  unfold requests. simpl. rewrite omap_app. f_equal. simpl.
  clear Hans. induction (sentences (self st)) as [|s ss IH]; [reflexivity|].
  simpl. f_equal. exact IH.
Qed.

Example generate_counterfactuals_patched :
  (generate_counterfactuals
     (mkState patched_generator (constructed_world false false))).2 = Ok tt ∧
  counter_sentences
    (self (generate_counterfactuals
             (mkState patched_generator (constructed_world false false))).1)
    = Some example_edits.
Proof. vm_compute. split; reflexivity. Qed.

(** C1 (the code departs from the claim).  The run of the end-to-end
    example is valid: the source file exists, both arguments are set, the
    constructor succeeds and the model answers both sentences.  Yet
    [generate_counterfactuals] raises on the first sentence and leaves
    [counter_sentences] at [None]: there is no output record set, let alone
    one entry per input sentence.  The whole script, started on this
    input, ends with the same exception and writes no file. *)
Theorem generate_counterfactuals_valid_run_raises :
  let run := script (mkCommandLine (Some "in.csv") (Some "text") None false)
                    (example_world false) in
  run.2 = Raise NoneType_append ∧
  fs run.1 = fs (example_world false) ∧
  writes run.1 = [] ∧
  __init__ (Some "in.csv") (Some "text") None (Some false)
           (example_world false)
    = (constructed_world false false, Ok example_generator) ∧
  answers (model example_generator) (ext (constructed_world false false))
          (sentences example_generator)
          [["The movie was terrible"]; []] (Stub 2) ∧
  (generate_counterfactuals
     (mkState example_generator (constructed_world false false))).2
    = Raise NoneType_append ∧
  counter_sentences
    (self (generate_counterfactuals
             (mkState example_generator (constructed_world false false))).1)
    = None.
Proof.
  cbv zeta. split; [vm_compute; reflexivity|].
  split; [vm_compute; reflexivity|]. split; [vm_compute; reflexivity|].
  split; [vm_compute; reflexivity|]. split.
  - repeat (econstructor; try (vm_compute; reflexivity)).
  - split; vm_compute; reflexivity.
Qed.

(** C2 (the code departs from the claim).  On the one-sentence table the
    model is asked for one perturbation of [I hate rain] and returns no
    candidate, but the output does not become the original sentence: the
    call raises and [counter_sentences] stays [None].  On the two-sentence
    table the model returns a candidate for the first sentence, which is
    not kept either, and the second sentence is never sent to the model. *)
Theorem generate_counterfactuals_keeps_no_edit :
  let built := __init__ (Some "rain.csv") (Some "text") None (Some false)
                        rain_world in
  let rain := generate_counterfactuals (mkState rain_generator built.1) in
  let both := generate_counterfactuals
                (mkState example_generator (constructed_world false false)) in
  built.2 = Ok rain_generator ∧
  polyjuice_perturb (model rain_generator) "I hate rain" 1 (ext built.1)
    = (Stub 1, inr []) ∧
  requests (world rain.1) = [("I hate rain", 1%Z)] ∧
  rain.2 = Raise NoneType_append ∧
  counter_sentences (self rain.1) = None ∧
  polyjuice_perturb (model example_generator) "The movie was great" 1
                    (ext (constructed_world false false))
    = (Stub 1, inr ["The movie was terrible"]) ∧
  requests (world both.1) = [("The movie was great", 1%Z)] ∧
  both.2 = Raise NoneType_append ∧
  counter_sentences (self both.1) = None.
Proof. vm_compute. repeat split; reflexivity. Qed.

(** ** Validation in the constructor *)

(** C4 as stated fails on an empty column name: the constructor does not
    report an error and leave with status 1, it reads the source file and
    the column lookup raises [KeyError]. *)
Lemma init_accepts_empty_column_name :
  __init__ (Some "in.csv") (Some EmptyString) None None (example_world false)
  = (log (EvRead "in.csv") (example_world false),
     Raise (KeyError EmptyString)).
Proof. vm_compute. reflexivity. Qed.

(** C4, amended.  The constructor checks that the source path is set and
    exists and that the column name is set (not [None]).  If the path is
    unset or missing, or the column name is unset, all it does is print one
    error line and leave with status 1: no file is read or written and the
    model is not loaded.  Any column name that is set, the empty one
    included, passes: the constructor does not leave the process then and
    prints nothing. *)
Theorem init_validation {E : Type} `{!Environment E}
    (source_csv source_col dest : option string) (flag : option bool)
    (w : World E) :
  (source_csv = None
   ∨ (∃ p, source_csv = Some p ∧ fs w !! p = None)
   ∨ source_col = None →
   ∃ msg, __init__ source_csv source_col dest flag w
          = (log (EvPrint msg) w, Exit 1)) ∧
  (∀ p col,
     source_csv = Some p → is_Some (fs w !! p) → source_col = Some col →
     (∀ code, (__init__ source_csv source_col dest flag w).2 ≠ Exit code) ∧
     console (__init__ source_csv source_col dest flag w).1 = console w).
Proof.
  split.
  - intros Hbad. unfold __init__.
    destruct source_csv as [p|]; [|eexists; reflexivity].
    run. destruct (fs w !! p) as [en|] eqn:Hfs; simpl;
      [|eexists; reflexivity].
    destruct Hbad as [?|[(q & [= <-] & Hq)| ->]];
      [discriminate|congruence|eexists; reflexivity].
  - intros p col -> [en Hfs] ->. unfold __init__. run. rewrite Hfs. simpl.
    unfold read_csv. rewrite Hfs.
    destruct en as [[|header data]|]; simpl;
      try (split; [intros ?; discriminate|]; unfold console; simpl;
           rewrite ?omap_app, ?app_nil_r; reflexivity).
    destruct (getitem (frame_of_rows header data) col) as [cells|]; simpl;
      try (split; [intros ?; discriminate|]; unfold console; simpl;
           rewrite ?omap_app, ?app_nil_r; reflexivity).
    unfold Polyjuice.
    destruct flag as [f|]; simpl;
      match goal with |- context [polyjuice_load ?a ?b ?c] =>
        destruct (polyjuice_load a b c) as [e1 [err|[]]]
      end; simpl;
      (split; [intros ?; discriminate|]; unfold console; simpl;
       rewrite ?omap_app; simpl; rewrite ?app_nil_r; reflexivity).
Qed.

Lemma init_validation_witness :
  (∃ msg, __init__ (Some "missing.csv") (Some "text") None None
                   (example_world false)
          = (log (EvPrint msg) (example_world false), Exit 1)) ∧
  (∀ code, (__init__ (Some "in.csv") (Some EmptyString) None None
                     (example_world false)).2 ≠ Exit code) ∧
  console (__init__ (Some "in.csv") (Some EmptyString) None None
                    (example_world false)).1
    = console (example_world false).
Proof.
  split.
  - apply (proj1 (init_validation (Some "missing.csv") (Some "text") None None
                    (example_world false))).
    right; left. exists "missing.csv". split; reflexivity.
  - apply (proj2 (init_validation (Some "in.csv") (Some EmptyString) None None
                    (example_world false)) "in.csv" EmptyString);
      [reflexivity | vm_compute; eauto | reflexivity].
Defined.

(** C9.  When the source file exists and holds a table, both arguments are
    set and the named column is not in the header, the constructor does not
    take the error-and-exit path: it reads the file, prints nothing, and the
    column lookup raises [KeyError], which nothing catches. *)
Theorem init_missing_column_raises {E : Type} `{!Environment E}
    (path col : string) (dest : option string) (flag : option bool)
    (header : row) (data : list row) (w : World E) :
  fs w !! path = Some (File (header :: data)) →
  col ∉ header →
  __init__ (Some path) (Some col) dest flag w
  = (log (EvRead path) w, Raise (KeyError col)).
Proof.
  intros Hfs Hcol. unfold __init__. run. rewrite Hfs. simpl.
  unfold read_csv. rewrite Hfs.
  assert (getitem (frame_of_rows header data) col = None) as ->.
  { apply getitem_None. rewrite frame_of_rows_names. exact Hcol. }
  reflexivity.
Qed.

Lemma init_missing_column_raises_witness :
  __init__ (Some "in.csv") (Some "sentence") None None (example_world false)
  = (log (EvRead "in.csv") (example_world false),
     Raise (KeyError "sentence")).
Proof.
  apply (init_missing_column_raises "in.csv" "sentence" None None
           ["text"] [["The movie was great"]; ["I hate rain"]]).
  - vm_compute. reflexivity.
  - intros Hin. apply list_elem_of_singleton in Hin. discriminate.
Defined.

(** ** Export *)

(** C5.  When the output record set is a list and the destination can be
    written, [export_to_csv] succeeds and the file at [dest_csv] becomes the
    table with the single header cell [counter_sents] followed by one
    one-cell row per output string, in order (so there is no row-index
    column); what was at that path before is replaced, every other path is
    as before, and this is the only write. *)
Theorem export_to_csv_writes {E : Type} `{!Environment E}
    (st : State E) (l : list string) :
  counter_sentences (self st) = Some l →
  can_write (world st) (dest_csv (self st)) = true →
  ∃ w',
    export_to_csv st = (mkState (self st) w', Ok tt) ∧
    fs w' = <[dest_csv (self st)
              := File (["counter_sents"] :: map (λ s, [s]) l)]>
              (fs (world st)) ∧
    writes w' = writes (world st) ++ [dest_csv (self st)].
Proof.
  intros Hl Hw. rewrite export_to_csv_unfold. simpl. rewrite Hl, Hw.
  eexists. split; [reflexivity|]. split; [reflexivity|].
  unfold writes. simpl. rewrite !omap_app. simpl.
  rewrite app_nil_r. reflexivity.
Qed.

Lemma export_to_csv_writes_witness :
  ∃ w',
    export_to_csv ready_to_export
    = (mkState (self ready_to_export) w', Ok tt) ∧
    fs w' = <[dest_csv (self ready_to_export)
              := File (["counter_sents"] :: map (λ s, [s]) example_edits)]>
              (fs (world ready_to_export)) ∧
    writes w'
    = writes (world ready_to_export) ++ [dest_csv (self ready_to_export)].
Proof.
  apply (export_to_csv_writes ready_to_export example_edits); reflexivity.
Defined.

(** C8.  The object the constructor returns has [dest_csv] equal to the
    given path, or to [polyjuice_edits.csv] when none was given, and that is
    the path [export_to_csv] writes: on any later state of the object, the
    export writes this path when there is a list to export and the path can
    be written, and writes nothing otherwise. *)
Theorem init_dest_csv {E : Type} `{!Environment E}
    (source_csv source_col dest : option string) (flag : option bool)
    (w w' : World E) (g : PolyjuiceGenerator) :
  __init__ source_csv source_col dest flag w = (w', Ok g) →
  let path := match dest with
              | None => "polyjuice_edits.csv"
              | Some p => p
              end in
  dest_csv g = path ∧
  ∀ st : State E,
    same_config g (self st) →
    writes (world (export_to_csv st).1)
    = writes (world st)
      ++ match counter_sentences (self st) with
         | Some _ => if can_write (world st) path then [path] else []
         | None => []
         end.
Proof.
  intros Hinit path.
  destruct (init_Ok_inv _ _ _ _ _ _ _ Hinit)
    as (_&_&_&_&_&_&_&_&_&_&_&Hdest&_).
  assert (dest_csv g = path) as Hpath.
  { rewrite Hdest. subst path. destruct dest; reflexivity. }
  split; [exact Hpath|].
  intros st (_&_&_&Hd). rewrite export_to_csv_unfold. simpl.
  rewrite Hd, Hpath.
  destruct (counter_sentences (self st)) as [l|];
    [destruct (can_write (world st) path)|];
    unfold writes; simpl; rewrite !omap_app; simpl;
    rewrite ?app_nil_r; reflexivity.
Qed.

Lemma init_dest_csv_witness :
  dest_csv example_generator = "polyjuice_edits.csv" ∧
  ∀ st : State stub,
    same_config example_generator (self st) →
    writes (world (export_to_csv st).1)
    = writes (world st)
      ++ match counter_sentences (self st) with
         | Some _ =>
             if can_write (world st) "polyjuice_edits.csv"
             then ["polyjuice_edits.csv"] else []
         | None => []
         end.
Proof.
  apply (init_dest_csv (Some "in.csv") (Some "text") None (Some false)
           (example_world false) (constructed_world false false)
           example_generator).
  vm_compute. reflexivity.
Defined.

(** C10.  Whatever the state and the outcome, [generate_counterfactuals]
    leaves [sentences], [cuda], [model] and [dest_csv] as they were, and
    [export_to_csv] leaves the whole object as it was; so does [pipeline]
    for the four configuration fields, in either mode. *)
Theorem methods_preserve_fields {E : Type} `{!Environment E} (st : State E) :
  same_config (self st) (self (generate_counterfactuals st).1) ∧
  self (export_to_csv st).1 = self st ∧
  ∀ debug, same_config (self st) (self (pipeline debug st).1).
Proof.
  pose proof (generate_counterfactuals_frame st) as (Hcfg & _).
  split; [exact Hcfg|].
  assert (∀ st1 : State E, self (export_to_csv st1).1 = self st1) as Hexp.
  { intros st1. rewrite export_to_csv_unfold. simpl.
    destruct (counter_sentences (self st1));
      [destruct (can_write _ _)|]; reflexivity. }
  split; [apply Hexp|].
  intros [|].
  - rewrite pipeline_debug_unfold.
    destruct (generate_counterfactuals st) as [st1 [[]|c|e]]; simpl in *;
      try exact Hcfg.
    destruct (counter_sentences (self st1)); simpl; [|exact Hcfg].
    rewrite print_pairs_unfold. exact Hcfg.
  - rewrite pipeline_normal_unfold.
    destruct (generate_counterfactuals st) as [st1 [[]|c|e]]; simpl in *;
      try exact Hcfg.
    rewrite Hexp. exact Hcfg.
Qed.

(** ** The two modes of [pipeline] *)

Section debug_lines.
Lemma pair_events_console ps :
  omap (λ ev, match ev with EvPrint l => Some l | _ => None end)
       (pair_events ps)
  = flat_map (λ p, [pair_line p; str_repeat "=" 100]) ps.
Proof.
  induction ps as [|p ps IH]; [reflexivity|].
  cbn [pair_events flat_map]. rewrite omap_app. cbn [omap list_omap].
  cbn [app]. f_equal. f_equal. exact IH.
Qed.

Lemma pair_events_writes ps :
  omap (λ ev, match ev with EvWrite p => Some p | _ => None end)
       (pair_events ps) = [].
Proof.
  induction ps as [|p ps IH]; [reflexivity|].
  cbn [pair_events flat_map]. rewrite omap_app. cbn [omap list_omap].
  exact IH.
Qed.
End debug_lines.

(** The two modes on any state.  In debug mode [pipeline] never touches
    the file system and records no write, whatever the outcome; once
    generation has succeeded and left a list of outputs, it prints, after
    the line of generation, the line [Original: s], an empty line, the line
    [Counter: c] and a line of one hundred [=] for every pair [(s, c)] of
    [zip(sentences, counter_sentences)], in order, and returns.  In normal
    mode [pipeline] is generation followed, if generation succeeded, by
    export. *)
Lemma pipeline_modes {E : Type} `{!Environment E} (st : State E) :
  (fs (world (pipeline true st).1) = fs (world st) ∧
   writes (world (pipeline true st).1) = writes (world st)) ∧
  (∀ st1 out,
     generate_counterfactuals st = (st1, Ok tt) →
     counter_sentences (self st1) = Some out →
     ∃ st2,
       pipeline true st = (st2, Ok tt) ∧
       self st2 = self st1 ∧
       console (world st2)
       = console (world st)
         ++ "[INFO]: Generating Counterfactuals..."
         :: flat_map (λ p, ["Original: " +:+ p.1 +:+ "

Counter: " +:+ p.2 +:+ "
";
                           "===================================================================================================="])
                     (zip (sentences (self st)) out)) ∧
  pipeline false st
  = match generate_counterfactuals st with
    | (st1, Ok _) => export_to_csv st1
    | (st1, Exit c) => (st1, Exit c)
    | (st1, Raise e) => (st1, Raise e)
    end.
Proof.
  pose proof (generate_counterfactuals_frame st)
    as ((Hss&_) & Hfs & Hcon & Hwr & _).
  split; [|split; [|apply pipeline_normal_unfold]].
  - rewrite pipeline_debug_unfold.
    destruct (generate_counterfactuals st) as [st1 [[]|c|e]]; simpl in *;
      try (split; assumption).
    destruct (counter_sentences (self st1)) as [out|]; simpl;
      [|split; assumption].
    rewrite print_pairs_unfold. simpl. split; [exact Hfs|].
    unfold writes in *. simpl. rewrite omap_app.
    fold (pair_events (zip (sentences (self st1)) out)).
    rewrite pair_events_writes, app_nil_r. exact Hwr.
  - intros st1 out Hgen Hout. rewrite pipeline_debug_unfold, Hgen, Hout.
    rewrite Hgen in Hss, Hcon. simpl in Hss, Hcon.
    rewrite print_pairs_unfold. eexists. split; [reflexivity|].
    split; [reflexivity|].
    unfold console in *. simpl. rewrite omap_app.
    fold (pair_events (zip (sentences (self st1)) out)).
    rewrite pair_events_console, Hcon, Hss.
    rewrite <- app_assoc. reflexivity.
Qed.

Lemma pipeline_modes_witness :
  ∃ st2,
    pipeline true (mkState patched_generator (constructed_world false false))
    = (st2, Ok tt) ∧
    self st2 = with_counter example_generator (Some example_edits) ∧
    console (world st2)
    = console (constructed_world false false)
      ++ "[INFO]: Generating Counterfactuals..."
      :: flat_map (λ p, ["Original: " +:+ p.1 +:+ "

Counter: " +:+ p.2 +:+ "
";
                           "===================================================================================================="])
                  (zip (sentences patched_generator) example_edits).
Proof.
  apply (proj1 (proj2 (pipeline_modes
           (mkState patched_generator (constructed_world false false))))
           (mkState (with_counter example_generator (Some example_edits))
                    (mkWorld (fs (constructed_world false false))
                       (trace (constructed_world false false)
                          ++ [generating;
                              EvPerturb "The movie was great" 1;
                              EvPerturb "I hate rain" 1])
                       false (λ _, true) (Stub 2)))
           example_edits).
  - vm_compute. reflexivity.
  - reflexivity.
Defined.

(** C6 (the code departs from the claim).  On the object the constructor
    builds for the end-to-end example, [pipeline(debug=True)] prints the
    line of generation and then raises on the first sentence: no
    (original, counterfactual) pair reaches the console.  On the same
    object [pipeline()] raises at the same place: the export is never
    started and no file is written.  Only on an object whose
    [counter_sentences] was bound to an empty list by hand do the two modes
    do what is claimed: the debug mode prints the two pairs in input order
    and writes nothing, the normal mode generates and then writes the
    destination file. *)
Theorem pipeline_constructed_object_prints_no_pair :
  let fresh := mkState example_generator (constructed_world false false) in
  let debug := pipeline true fresh in
  let normal := pipeline false fresh in
  let debug' := pipeline true patched_state in
  let normal' := pipeline false patched_state in
  __init__ (Some "in.csv") (Some "text") None (Some false)
           (example_world false)
    = (constructed_world false false, Ok example_generator) ∧
  (debug.2 = Raise NoneType_append ∧
   console (world debug.1) = ["[INFO]: Generating Counterfactuals..."] ∧
   fs (world debug.1) = fs (world fresh)) ∧
  (normal.2 = Raise NoneType_append ∧
   console (world normal.1) = ["[INFO]: Generating Counterfactuals..."] ∧
   writes (world normal.1) = [] ∧
   fs (world normal.1) = fs (world fresh)) ∧
  (debug'.2 = Ok tt ∧
   console (world debug'.1)
   = ["[INFO]: Generating Counterfactuals...";
      "Original: The movie was great

Counter: The movie was terrible
";
      "====================================================================================================";
      "Original: I hate rain

Counter: I hate rain
";
      "===================================================================================================="] ∧
   writes (world debug'.1) = [] ∧
   fs (world debug'.1) = fs (world patched_state)) ∧
  (normal'.2 = Ok tt ∧
   console (world normal'.1)
   = ["[INFO]: Generating Counterfactuals...";
      "[INFO]: Exporting counterfactuals to polyjuice_edits.csv..."] ∧
   writes (world normal'.1) = ["polyjuice_edits.csv"] ∧
   fs (world normal'.1) !! "polyjuice_edits.csv"
   = Some (File [["counter_sents"]; ["The movie was terrible"];
                 ["I hate rain"]]) ∧
   fs (world normal'.1) !! "in.csv" = fs (world patched_state) !! "in.csv").
Proof.
  cbv zeta. split; [vm_compute; reflexivity|].
  split; [repeat split; vm_compute; reflexivity|].
  split; [repeat split; vm_compute; reflexivity|].
  split; repeat split; vm_compute; reflexivity.
Qed.

(** ** Device selection *)

(** C7 as stated fails for the command line: without [--cuda], on a machine
    where an accelerator is available, the constructor is handed [False],
    not [None]; the device is the CPU and availability is never consulted. *)
Lemma cli_without_cuda_flag_ignores_hardware :
  let argv := mkCommandLine (Some "in.csv") (Some "text") None false in
  let ARG := Namespace.mk "in.csv" "text" None false in
  cuda_available (example_world true) = true ∧
  parse_input argv (example_world true) = (example_world true, Ok ARG) ∧
  poly_generator ARG (example_world true)
    = (constructed_world true false, Ok example_generator) ∧
  cuda example_generator ≠ cuda_available (example_world true).
Proof.
  cbv zeta. split; [reflexivity|]. split; [reflexivity|].
  split; [vm_compute; reflexivity|]. discriminate.
Qed.

(** C7, amended.  The object the constructor returns has [cuda] equal to the
    [cuda] argument when that is not [None] and to the availability of the
    accelerator otherwise, and its model was loaded for that device.  The
    command line always hands a boolean to the constructor: for every
    invocation that gets as far as a constructed object, [cuda] is [True]
    exactly when [--cuda] was given, whatever the hardware. *)
Theorem device_selection {E : Type} `{!Environment E} :
  (∀ source_csv source_col dest flag (w w' : World E) g,
     __init__ source_csv source_col dest flag w = (w', Ok g) →
     cuda g = match flag with
              | Some b => b
              | None => cuda_available w
              end ∧
     is_cuda (model g) = cuda g) ∧
  (∀ argv (w0 w1 w w' : World E) ARG g,
     parse_input argv w0 = (w1, Ok ARG) →
     poly_generator ARG w = (w', Ok g) →
     cuda g = flag_cuda argv ∧ is_cuda (model g) = flag_cuda argv).
Proof.
  assert (∀ source_csv source_col dest flag (w w' : World E) g,
     __init__ source_csv source_col dest flag w = (w', Ok g) →
     cuda g = match flag with
              | Some b => b
              | None => cuda_available w
              end ∧
     is_cuda (model g) = cuda g) as Hinit.
  { intros a b c d w w' g Hg.
    destruct (init_Ok_inv _ _ _ _ _ _ _ Hg)
      as (_&_&_&_&_&_&_&_&_&Hc&Hm&_).
    split; [exact Hc|]. rewrite Hm. reflexivity. }
  split; [exact Hinit|].
  intros argv w0 w1 w w' ARG g Hparse Hg.
  unfold parse_input in Hparse.
  destruct (opt_source_csv argv), (opt_source_col argv);
    try discriminate.
  injection Hparse as _ <-.
  destruct (Hinit _ _ _ _ _ _ _ Hg) as [Hc Hm]. simpl in Hc.
  rewrite Hm, Hc. split; reflexivity.
Qed.

(** With no [cuda] argument the constructor follows the hardware. *)
Example init_detects_device :
  match (__init__ (Some "in.csv") (Some "text") None None
                  (example_world true)).2 with
  | Ok g => cuda g = true ∧ is_cuda (model g) = true
  | _ => False
  end.
Proof. vm_compute. split; reflexivity. Qed.

Lemma device_selection_witness :
  (cuda example_generator = false ∧
   is_cuda (model example_generator) = cuda example_generator) ∧
  (cuda example_generator = false ∧
   is_cuda (model example_generator) = false).
Proof.
  split.
  - apply (proj1 device_selection (Some "in.csv") (Some "text") None
             (Some false) (example_world true) (constructed_world true false)
             example_generator).
    vm_compute. reflexivity.
  - apply (proj2 device_selection
             (mkCommandLine (Some "in.csv") (Some "text") None false)
             (example_world true) (example_world true) (example_world true)
             (constructed_world true false)
             (Namespace.mk "in.csv" "text" None false) example_generator).
    + reflexivity.
    + vm_compute. reflexivity.
Defined.

(** * Further properties of the script *)

(** ** The constructor, case by case *)

Section init_facts.
Context {E : Type} `{!Environment E}.
Implicit Types (w : World E).

(** Every path through [__init__], in the order the code takes them. *)
Lemma init_cases (a b c : option string) (d : option bool) w :
  __init__ a b c d w =
  match a with
  | None => (log (EvPrint "[ERROR]: source_csv must be specified") w, Exit 1)
  | Some path =>
      match fs w !! path with
      | None =>
          (log (EvPrint ("[ERROR]: file " +:+ path +:+ " does not exist")) w,
           Exit 1)
      | Some en =>
          match b with
          | None =>
              (log (EvPrint "[ERROR]: source_col must be specified") w, Exit 1)
          | Some col =>
              match en with
              | Dir => (w, Raise (OSError path))
              | File [] => (log (EvRead path) w, Raise EmptyDataError)
              | File (header :: data) =>
                  match getitem (frame_of_rows header data) col with
                  | None => (log (EvRead path) w, Raise (KeyError col))
                  | Some cells =>
                      let flag := match d with
                                  | Some f => f
                                  | None => cuda_available w
                                  end in
                      let w1 := log (EvLoadModel "uw-hai/polyjuice" flag)
                                    (log (EvRead path) w) in
                      match polyjuice_load "uw-hai/polyjuice" flag (ext w) with
                      | (e1, inl err) => (set_ext e1 w1, Raise err)
                      | (e1, inr _) =>
                          (set_ext e1 w1,
                           Ok (mkGenerator cells flag
                                 (mkModel "uw-hai/polyjuice" flag)
                                 (default "polyjuice_edits.csv" c) None))
                      end
                  end
              end
          end
      end
  end.
Proof.
  unfold __init__. destruct a as [path|]; [|reflexivity].
  run. destruct (fs w !! path) as [en|] eqn:Hfs; simpl; [|reflexivity].
  destruct b as [col|]; [|reflexivity].
  unfold read_csv. rewrite Hfs.
  destruct en as [[|header data]|]; try reflexivity.
  destruct (getitem (frame_of_rows header data) col) as [cells|];
    [|reflexivity].
  unfold Polyjuice.
  destruct d as [f|]; simpl;
    match goal with |- context [polyjuice_load ?x ?y ?z] =>
      destruct (polyjuice_load x y z) as [e1 [err|[]]]
    end; reflexivity.
Qed.
End init_facts.

(** X1.  Whenever the constructor leaves the process, the status is 1 and
    all it did is print one line, which names the first check that failed,
    in the order: path unset, path missing, column unset.  So an unset path
    is reported even when the column is unset too, and a missing file is
    reported before an unset column. *)
Theorem init_exit_message {E : Type} `{!Environment E}
    (source_csv source_col dest : option string) (flag : option bool)
    (w : World E) (code : Z) :
  (__init__ source_csv source_col dest flag w).2 = Exit code →
  code = 1%Z ∧
  __init__ source_csv source_col dest flag w
  = (log (EvPrint
            match source_csv with
            | None => "[ERROR]: source_csv must be specified"
            | Some p =>
                match fs w !! p with
                | None => "[ERROR]: file " +:+ p +:+ " does not exist"
                | Some _ => "[ERROR]: source_col must be specified"
                end
            end) w,
     Exit 1).
Proof.
  rewrite init_cases.
  destruct source_csv as [p|]; [|intros [= <-]; split; reflexivity].
  destruct (fs w !! p) as [en|]; [|intros [= <-]; split; reflexivity].
  destruct source_col as [col|]; [|intros [= <-]; split; reflexivity].
  destruct en as [[|header data]|]; try discriminate.
  destruct (getitem _ col); [|discriminate]. simpl.
  destruct (polyjuice_load _ _ _) as [e1 [err|[]]]; discriminate.
Qed.

Lemma init_exit_message_witness :
  1%Z = 1%Z ∧
  __init__ None None None None (example_world false)
  = (log (EvPrint "[ERROR]: source_csv must be specified")
         (example_world false),
     Exit 1).
Proof.
  apply (init_exit_message None None None None (example_world false) 1).
  reflexivity.
Defined.

(** X2.  Whatever its arguments and its outcome, the constructor changes no
    file, records no write and sends no request to the model; it reads at
    most one file, the source path. *)
Theorem init_frame {E : Type} `{!Environment E}
    (source_csv source_col dest : option string) (flag : option bool)
    (w : World E) :
  let w' := (__init__ source_csv source_col dest flag w).1 in
  fs w' = fs w ∧
  writes w' = writes w ∧
  requests w' = requests w ∧
  (reads w' = reads w
   ∨ ∃ p, source_csv = Some p ∧ reads w' = reads w ++ [p]).
Proof.
  rewrite init_cases.
  assert (∀ r : World E * result PolyjuiceGenerator,
            (∃ evs, trace r.1 = trace w ++ evs ∧ fs r.1 = fs w ∧
                    (evs = [] ∨ (∃ l, evs = [EvPrint l]) ∨
                     ∃ p tl, source_csv = Some p ∧ evs = EvRead p :: tl ∧
                             (tl = [] ∨ ∃ m c, tl = [EvLoadModel m c]))) →
            fs r.1 = fs w ∧ writes r.1 = writes w ∧
            requests r.1 = requests w ∧
            (reads r.1 = reads w
             ∨ ∃ p, source_csv = Some p ∧ reads r.1 = reads w ++ [p]))
    as Hshape.
  { intros r (evs & Htr & Hfs & Hevs). unfold writes, requests, reads.
    rewrite Htr, !omap_app.
    destruct Hevs as [->|[[l ->]|(p & tl & Hp & -> & [->|(m & c & ->)])]];
      simpl; rewrite ?app_nil_r; eauto 10. }
  apply Hshape. clear Hshape.
  destruct source_csv as [p|];
    [|eexists; split; [reflexivity|]; eauto 10].
  destruct (fs w !! p) as [en|];
    [|eexists; split; [reflexivity|]; eauto 10].
  destruct source_col as [col|];
    [|eexists; split; [reflexivity|]; eauto 10].
  destruct en as [[|header data]|].
  - eexists; split; [reflexivity|]; eauto 10.
  - destruct (getitem (frame_of_rows header data) col) as [cells|];
      [|eexists; split; [reflexivity|]; eauto 10].
    cbv zeta.
    match goal with |- context [polyjuice_load ?x ?y ?z] =>
      destruct (polyjuice_load x y z) as [e1 [err|[]]]
    end; simpl; (eexists; split; [rewrite <- app_assoc; reflexivity|]);
      simpl; eauto 12.
  - exists []. rewrite app_nil_r. eauto.
Qed.

(** ** Generation on an object whose output is a list *)

Section list_object.
Context {E : Type} `{!Environment E}.
Implicit Types (st : State E) (ss : list string).


Lemma requests_perturb ss :
  omap (λ ev, match ev with EvPerturb s n => Some (s, n) | _ => None end)
       (map (λ s, EvPerturb s 1) ss)
  = map (λ s, (s, 1%Z)) ss.
Proof. induction ss as [|s ss IH]; simpl; [reflexivity|]. f_equal. exact IH. Qed.

(** The loop over [done ++ rest], when the model answers all of [done]:
    the edits of [done] are appended and the loop goes on with [rest]. *)
Lemma for_each_sentence_app done : ∀ rest st acc cs e1,
  counter_sentences (self st) = Some acc →
  answers (model (self st)) (ext (world st)) done cs e1 →
  for_each_sentence (done ++ rest) st =
  for_each_sentence rest
    (mkState (with_counter (self st) (Some (acc ++ zip_with first_or cs done)))
             (mkWorld (fs (world st))
                      (trace (world st) ++ map (λ s, EvPerturb s 1) done)
                      (cuda_available (world st)) (can_write (world st)) e1)).
Proof.
  induction done as [|s done IH]; intros rest st acc cs e1 Hacc Hans.
  - inversion Hans; subst. simpl.
    destruct st as [g w], g, w; simpl in *; subst.
    rewrite !app_nil_r. reflexivity.
  - inversion Hans as [|? ? ? c cs' e0 ? Hp Hrest]; subst.
    rewrite <- app_comm_cons.
    rewrite (for_each_sentence_cons_list st s (done ++ rest) acc e0 c Hacc Hp).
    erewrite IH; [|reflexivity|exact Hrest].
    simpl. unfold with_counter. simpl. rewrite <- !app_assoc. reflexivity.
Qed.

(** A turn in which the model raises: the exception leaves the loop. *)
Lemma for_each_sentence_raises st s rest e2 err :
  polyjuice_perturb (model (self st)) s 1 (ext (world st)) = (e2, inl err) →
  for_each_sentence (s :: rest) st
  = (mkState (self st) (set_ext e2 (log (EvPerturb s 1) (world st))),
     Raise err).
Proof. intros Hp. simpl. run. rewrite Hp. reflexivity. Qed.
End list_object.



(** X5.  On an object whose [counter_sentences] is a list, when the model
    answers the sentences of [done] and raises on the next one, the
    exception leaves [generate_counterfactuals] uncaught: the edits of
    [done] stay appended to the list, the failing sentence is the last one
    sent to the model, the sentences after it are never sent, and no file
    changed. *)
Theorem generate_counterfactuals_model_failure {E : Type} `{!Environment E}
    (st : State E) (acc done rest : list string) (s : string)
    (cs : list (list string)) (e1 e2 : E) (err : exn) :
  counter_sentences (self st) = Some acc →
  sentences (self st) = done ++ s :: rest →
  answers (model (self st)) (ext (world st)) done cs e1 →
  polyjuice_perturb (model (self st)) s 1 e1 = (e2, inl err) →
  ∃ st',
    generate_counterfactuals st = (st', Raise err) ∧
    counter_sentences (self st')
    = Some (acc ++ zip_with first_or cs done) ∧
    requests (world st')
    = requests (world st) ++ map (λ s, (s, 1%Z)) (done ++ [s]) ∧
    fs (world st') = fs (world st).
Proof.
  intros Hacc Hss Hans Hp. rewrite generate_counterfactuals_unfold, Hss.
  erewrite for_each_sentence_app; [|exact Hacc|exact Hans].
  erewrite for_each_sentence_raises; [|exact Hp].
  eexists. split; [reflexivity|]. split; [reflexivity|].
  split; [|reflexivity].
  unfold requests. simpl. rewrite !omap_app. simpl.
  rewrite requests_perturb, map_app, app_nil_r.
  rewrite <- app_assoc. reflexivity.
Qed.

Lemma generate_counterfactuals_model_failure_witness :
  ∃ st',
    generate_counterfactuals flaky_state
    = (st', Raise (LibraryError "generation failed")) ∧
    counter_sentences (self st')
    = Some ([] ++ zip_with first_or [["The movie was terrible"]]
                           ["The movie was great"]) ∧
    requests (world st')
    = requests (world flaky_state)
      ++ map (λ s, (s, 1%Z)) (["The movie was great"] ++ ["I hate rain"]) ∧
    fs (world st') = fs (world flaky_state).
Proof.
  apply (generate_counterfactuals_model_failure flaky_state []
           ["The movie was great"] [] "I hate rain"
           [["The movie was terrible"]] (Flaky 1) (Flaky 2)
           (LibraryError "generation failed")).
  - reflexivity.
  - reflexivity.
  - repeat (econstructor; try (vm_compute; reflexivity)).
  - vm_compute. reflexivity.
Defined.

(** ** Export and the pipeline *)

Section pipeline_facts.
Context {E : Type} `{!Environment E}.
Implicit Types (st : State E) (w : World E) (g : PolyjuiceGenerator).

(** On an object whose [counter_sentences] is [None], [pipeline] raises in
    either mode and leaves the files alone. *)
Lemma pipeline_None_raises g w debug :
  counter_sentences g = None →
  ∃ st' e,
    pipeline debug (mkState g w) = (st', Raise e) ∧
    fs (world st') = fs w ∧
    writes (world st') = writes w.
Proof.
  intros Hnone.
  assert (∀ w1 : World E, writes (log generating w1) = writes w1) as Hgen.
  { intros w1. unfold writes. simpl. rewrite omap_app. apply app_nil_r. }
  destruct (sentences g) as [|s rest] eqn:Hss.
  - assert (generate_counterfactuals (mkState g w)
            = (mkState g (log generating w), Ok tt)) as Hrun.
    { rewrite generate_counterfactuals_unfold. simpl. rewrite Hss.
      reflexivity. }
    destruct debug.
    + rewrite pipeline_debug_unfold, Hrun. simpl. rewrite Hnone.
      eexists _, _. split; [reflexivity|]. simpl. split; [reflexivity|].
      apply Hgen.
    + rewrite pipeline_normal_unfold, Hrun, export_to_csv_unfold. simpl.
      rewrite Hnone. eexists _, _. split; [reflexivity|]. simpl.
      split; [reflexivity|].
      unfold writes. simpl. rewrite !omap_app. simpl.
      rewrite !app_nil_r. reflexivity.
  - destruct (generate_counterfactuals_None (mkState g w) s rest Hnone Hss)
      as (e1 & e & Hrun & _).
    exists (mkState g (set_ext e1 (log (EvPerturb s 1) (log generating w)))), e.
    split.
    + destruct debug;
        [rewrite pipeline_debug_unfold|rewrite pipeline_normal_unfold];
        rewrite Hrun; reflexivity.
    + simpl. split; [reflexivity|].
      unfold writes. simpl. rewrite !omap_app. simpl.
      rewrite !app_nil_r. reflexivity.
Qed.


Lemma perturb_events_console (ss : list string) :
  omap (λ ev, match ev with EvPrint l => Some l | _ => None end)
       (map (λ s, EvPerturb s 1) ss) = [].
Proof. induction ss as [|s ss IH]; [reflexivity|exact IH]. Qed.

Lemma zip_app_stale {A B} (l : list A) (k1 k2 : list B) :
  length l ≤ length k1 → zip l (k1 ++ k2) = zip l k1.
Proof.
  intros Hlen. rewrite zip_with_app_r.
  rewrite take_ge, drop_ge by exact Hlen. apply app_nil_r.
Qed.
End pipeline_facts.

(** X6.  [export_to_csv] always prints its announcement first.  It succeeds
    exactly when [counter_sentences] is a list and the destination can be
    written.  With [counter_sentences] still [None] the data frame cannot be
    built and [ValueError] is raised; with a destination that cannot be
    written the error of the write is raised.  In both failures no file has
    changed and no write is recorded. *)
Theorem export_to_csv_outcome {E : Type} `{!Environment E} (st : State E) :
  let r := export_to_csv st in
  let dest := dest_csv (self st) in
  console (world r.1)
  = console (world st)
    ++ ["[INFO]: Exporting counterfactuals to " +:+ dest +:+ "..."] ∧
  (r.2 = Ok tt
   ↔ is_Some (counter_sentences (self st)) ∧ can_write (world st) dest = true) ∧
  (counter_sentences (self st) = None → r.2 = Raise scalar_values) ∧
  (is_Some (counter_sentences (self st)) →
   can_write (world st) dest = false → r.2 = Raise (OSError dest)) ∧
  (r.2 ≠ Ok tt →
   fs (world r.1) = fs (world st) ∧ writes (world r.1) = writes (world st)).
Proof.
  cbv zeta. rewrite export_to_csv_unfold. cbv zeta.
  assert (∀ x : list string, ¬ is_Some (@None (list string))) as Hno
    by (intros _ [? ?]; discriminate).
  destruct (counter_sentences (self st)) as [l|];
    [destruct (can_write (world st) (dest_csv (self st)))|];
    unfold console, writes; simpl; rewrite !omap_app; simpl;
    rewrite ?app_nil_r; (split; [reflexivity|]).
  - split; [split; eauto|]. split; [discriminate|].
    split; [discriminate|]. intros Hne. destruct Hne. reflexivity.
  - split; [split; [discriminate|intros [_ ?]; discriminate]|].
    split; [discriminate|]. split; [reflexivity|]. split; reflexivity.
  - split; [split; [discriminate|intros [? _]; destruct (Hno [])]; auto|].
    split; [reflexivity|].
    split; [intros ?; destruct (Hno []); auto|]. split; reflexivity.
Qed.

(** X7.  After construction [pipeline] never succeeds: for every object
    the constructor returns, in either mode and in any world, it ends with
    an exception and leaves every file as it was (an empty sentence list
    included: the export then fails on [None], and the debug listing fails
    to iterate over [None]). *)
Theorem pipeline_after_init_raises {E : Type} `{!Environment E}
    (source_csv source_col dest : option string) (flag : option bool)
    (w w' w1 : World E) (g : PolyjuiceGenerator) (debug : bool) :
  __init__ source_csv source_col dest flag w = (w', Ok g) →
  ∃ st' e,
    pipeline debug (mkState g w1) = (st', Raise e) ∧
    fs (world st') = fs w1 ∧
    writes (world st') = writes w1.
Proof.
  intros Hinit.
  destruct (init_Ok_inv _ _ _ _ _ _ _ Hinit)
    as (_&_&_&_&_&_&_&_&_&_&_&_&Hnone&_).
  exact (pipeline_None_raises g w1 debug Hnone).
Qed.

Lemma pipeline_after_init_raises_witness :
  ∃ st' e,
    pipeline false (mkState example_generator (constructed_world false false))
    = (st', Raise e) ∧
    fs (world st') = fs (constructed_world false false) ∧
    writes (world st') = writes (constructed_world false false).
Proof.
  apply (pipeline_after_init_raises (Some "in.csv") (Some "text") None
           (Some false) (example_world false) (constructed_world false false)).
  vm_compute. reflexivity.
Defined.



(** X9.  The debug listing pairs the sentences with the front of
    [counter_sentences].  When the list already holds at least as many
    entries as there are sentences (after an earlier run on the same
    object, for example), the new edits are appended behind them and the
    listing shows the old entries beside the sentences: what is printed
    does not depend on what the model returned in this run. *)
Theorem pipeline_debug_prints_front {E : Type} `{!Environment E}
    (st : State E) (acc : list string) (cs : list (list string)) (e' : E) :
  counter_sentences (self st) = Some acc →
  length (sentences (self st)) ≤ length acc →
  answers (model (self st)) (ext (world st)) (sentences (self st)) cs e' →
  ∃ st',
    pipeline true st = (st', Ok tt) ∧
    counter_sentences (self st')
    = Some (acc ++ zip_with first_or cs (sentences (self st))) ∧
    console (world st')
    = console (world st)
      ++ "[INFO]: Generating Counterfactuals..."
      :: flat_map (λ p, ["Original: " +:+ p.1 +:+ "

Counter: " +:+ p.2 +:+ "
";
                           "===================================================================================================="])
                  (zip (sentences (self st)) acc).
Proof.
  intros Hacc Hlen Hans. rewrite pipeline_debug_unfold.
  rewrite (generate_counterfactuals_list st acc cs e' Hacc Hans).
  cbn [self counter_sentences with_counter sentences].
  rewrite zip_app_stale by exact Hlen.
  rewrite print_pairs_unfold. eexists. split; [reflexivity|].
  split; [reflexivity|].
  unfold console. cbn [world trace].
  change (generating :: ?l) with ([generating] ++ l).
  fold (pair_events (zip (sentences (self st)) acc)).
  rewrite !omap_app, pair_events_console, perturb_events_console.
  rewrite <- !app_assoc. reflexivity.
Qed.

Lemma pipeline_debug_prints_front_witness :
  ∃ st',
    pipeline true stale_state = (st', Ok tt) ∧
    counter_sentences (self st')
    = Some (["An old edit"; "Another old edit"]
              ++ ["The movie was terrible"; "I hate rain"]) ∧
    console (world st')
    = [] ++ ["[INFO]: Generating Counterfactuals...";
             "Original: The movie was great

Counter: An old edit
";
             "====================================================================================================";
             "Original: I hate rain

Counter: Another old edit
";
             "===================================================================================================="].
Proof.
  assert (answers (model (self stale_state)) (ext (world stale_state))
                  (sentences (self stale_state))
                  [["The movie was terrible"]; []] (Stub 2)) as Hans
    by (repeat (econstructor; try (vm_compute; reflexivity))).
  exact (pipeline_debug_prints_front stale_state
           ["An old edit"; "Another old edit"]
           [["The movie was terrible"]; []] (Stub 2)
           eq_refl (le_n 2) Hans).
Defined.

(** ** The entry point *)

Section entry_point.
Context {E : Type} `{!Environment E}.
Implicit Types (w : World E).

(** What a run of [main] comes to: the exit of the constructor on a missing
    source file, or an exception. *)
Lemma main_ends (args : Namespace.t) w :
  let p := Namespace.source_csv args in
  (fs w !! p = None ∧
   ∃ e0, main args w
         = (log (EvPrint ("[ERROR]: file " +:+ p +:+ " does not exist"))
                (set_ext e0 w),
            Exit 1))
  ∨ (is_Some (fs w !! p) ∧
     ∃ w1 e, main args w = (w1, Raise e) ∧
             fs w1 = fs w ∧ writes w1 = writes w).
Proof.
  cbv zeta. set (p := Namespace.source_csv args).
  remember (main args w) as r eqn:Hr.
  unfold main in Hr. unfold bind at 1 in Hr. unfold datetime_now in Hr.
  destruct (now (ext w)) as [e0 t0]. cbn beta iota in Hr.
  unfold bind at 1 in Hr. unfold poly_generator in Hr.
  rewrite init_cases in Hr. cbn [fs set_ext ext cuda_available] in Hr.
  fold p in Hr.
  assert (∀ ev (w1 : World E), (∀ q, ev ≠ EvWrite q) →
            writes (log ev w1) = writes w1) as Hlog.
  { intros ev w1 Hev. unfold writes. cbn [trace log]. rewrite omap_app.
    destruct ev; simpl; rewrite ?app_nil_r; try reflexivity.
    destruct (Hev path). reflexivity. }
  destruct (fs w !! p) as [en|]; [right|left; eauto].
  split; [eauto|].
  destruct en as [[|header data]|].
  - eexists _, _. split; [exact Hr|]. split; [reflexivity|].
    rewrite Hlog by discriminate. reflexivity.
  - destruct (getitem (frame_of_rows header data) (Namespace.source_col args))
      as [cells|].
    2: { eexists _, _. split; [exact Hr|]. split; [reflexivity|].
         rewrite Hlog by discriminate. reflexivity. }
    cbv zeta in Hr.
    match type of Hr with context [polyjuice_load ?x ?y ?z] =>
      destruct (polyjuice_load x y z) as [e1 [err|[]]]
    end.
    + eexists _, _. split; [exact Hr|]. split; [reflexivity|].
      unfold writes. cbn [trace log set_ext]. rewrite !omap_app. simpl.
      rewrite !app_nil_r. reflexivity.
    + unfold bind at 1 in Hr. unfold with_self in Hr.
      match type of Hr with context [pipeline false (mkState ?g ?w1)] =>
        destruct (pipeline_None_raises g w1 false eq_refl)
          as (st' & e & Hp & Hfs & Hw); rewrite Hp in Hr
      end.
      eexists _, _. split; [exact Hr|]. split; [rewrite Hfs; reflexivity|].
      rewrite Hw. unfold writes. cbn [trace log set_ext].
      rewrite !omap_app. simpl. rewrite !app_nil_r. reflexivity.
  - eexists _, _. split; [exact Hr|]. repeat split; reflexivity.
Qed.

Lemma script_unfold (argv : CommandLine) w :
  script argv w =
  match opt_source_csv argv, opt_source_col argv with
  | Some p, Some c =>
      main (Namespace.mk p c (opt_dest_csv argv) (flag_cuda argv)) w
  | _, _ => (w, Exit 2)
  end.
Proof.
  unfold script, parse_input.
  destruct (opt_source_csv argv), (opt_source_col argv); reflexivity.
Qed.
End entry_point.



(** X11.  How the script stops on a command line made only of the four
    declared options (no [-h], no unrecognised argument).  [argparse] stops
    it with [SystemExit(2)], before anything is printed on stdout, read or
    loaded, exactly when [--source-csv] or [--source-col] is missing.  The
    [exit(1)] of the constructor is reached exactly when both are given and
    the source file does not exist, and the line printed is then the one
    naming the missing file: the two unset-argument checks of the
    constructor cannot fire from the command line.  When both are given and
    the file exists the script ends with an uncaught exception.  It never
    reaches its end. *)
Theorem script_ends {E : Type} `{!Environment E}
    (argv : CommandLine) (w : World E) :
  let r := script argv w in
  r.2 ≠ Ok tt ∧
  fs r.1 = fs w ∧
  (r.2 = Exit 2
   ↔ opt_source_csv argv = None ∨ opt_source_col argv = None) ∧
  (opt_source_csv argv = None ∨ opt_source_col argv = None → r.1 = w) ∧
  (r.2 = Exit 1
   ↔ ∃ p c, opt_source_csv argv = Some p ∧ opt_source_col argv = Some c ∧
            fs w !! p = None) ∧
  (∀ p, r.2 = Exit 1 → opt_source_csv argv = Some p →
        console r.1 = console w ++ ["[ERROR]: file " +:+ p +:+ " does not exist"]) ∧
  (∀ p c, opt_source_csv argv = Some p → opt_source_col argv = Some c →
          is_Some (fs w !! p) → ∃ e, r.2 = Raise e).
Proof.
  cbv zeta. rewrite script_unfold.
  destruct (opt_source_csv argv) as [p|], (opt_source_col argv) as [c|];
    cbn [fst snd];
    try (split; [discriminate|]; split; [reflexivity|];
         split; [split; [intros _; eauto|reflexivity]|];
         split; [reflexivity|];
         split; [split; [discriminate|intros (?&?&?&?&?); discriminate]|];
         split; [intros ? [=]|intros ? ? ? ?; discriminate]).
  destruct (main_ends (Namespace.mk p c (opt_dest_csv argv) (flag_cuda argv)) w)
    as [(Hmiss & e0 & ->)|(Hthere & w1 & e & -> & Hfs & _)];
    cbn [Namespace.source_csv] in *; cbn [fst snd].
  - split; [discriminate|]. split; [reflexivity|].
    split; [split; [discriminate|intros [?|?]; discriminate]|].
    split; [intros [?|?]; discriminate|].
    split; [split; eauto|]. split.
    + intros q _ [= <-]. unfold console. cbn [trace log set_ext].
      rewrite omap_app. reflexivity.
    + intros q ? [= <-] _ Hq. rewrite Hmiss in Hq.
      destruct Hq as [? ?]; discriminate.
  - split; [discriminate|]. split; [exact Hfs|].
    split; [split; [discriminate|intros [?|?]; discriminate]|].
    split; [intros [?|?]; discriminate|].
    split; [split; [discriminate|]|split; [intros ? [=]|eauto]].
    intros (?&?&[= <-]&_&Hq). rewrite Hq in Hthere.
    destruct Hthere as [? ?]; discriminate.
Qed.

Lemma script_ends_witness :
  console (script (mkCommandLine (Some "nowhere.csv") (Some "text") None true)
                  (example_world true)).1
  = console (example_world true)
    ++ ["[ERROR]: file " +:+ "nowhere.csv" +:+ " does not exist"].
Proof.
  apply (proj1 (proj2 (proj2 (proj2 (proj2 (proj2
           (script_ends
              (mkCommandLine (Some "nowhere.csv") (Some "text") None true)
              (example_world true)))))))).
  - vm_compute. reflexivity.
  - reflexivity.
Defined.

(** ** What the model is asked *)

Section model_requests.
Context {E : Type} `{!Environment E}.
Implicit Types (st : State E) (ss : list string).

Lemma requests_log_perturb (w : World E) s n e :
  requests (set_ext e (log (EvPerturb s n) w)) = requests w ++ [(s, n)].
Proof. unfold requests. simpl. rewrite omap_app. reflexivity. Qed.

Lemma for_each_sentence_requests ss : ∀ st,
  let r := for_each_sentence ss st in
  ∃ k, k ≤ length ss ∧
       requests (world r.1)
       = requests (world st) ++ map (λ s, (s, 1%Z)) (take k ss) ∧
       (r.2 = Ok tt → k = length ss).
Proof.
  induction ss as [|s ss IH]; intros st; cbv zeta.
  - exists 0. simpl. rewrite app_nil_r. auto.
  - destruct (polyjuice_perturb (model (self st)) s 1 (ext (world st)))
      as [e1 [err|c]] eqn:Hp.
    + rewrite (for_each_sentence_raises st s ss e1 err Hp). exists 1.
      cbn [fst snd world length]. rewrite requests_log_perturb.
      split; [lia|]. split; [destruct ss; reflexivity|discriminate].
    + destruct (counter_sentences (self st)) as [acc|] eqn:Hacc.
      * rewrite (for_each_sentence_cons_list st s ss acc e1 c Hacc Hp).
        match goal with |- context [for_each_sentence ss ?s1] =>
          destruct (IH s1) as (k & Hk & Hreq & Hok)
        end.
        exists (S k). cbn [length]. split; [lia|].
        rewrite Hreq. cbn [world]. rewrite requests_log_perturb.
        rewrite <- app_assoc. split; [reflexivity|].
        intros Hr. rewrite (Hok Hr). reflexivity.
      * rewrite (for_each_sentence_None st s ss Hacc). cbv zeta. rewrite Hp.
        exists 1. cbn [fst snd world length]. rewrite requests_log_perturb.
        split; [lia|]. split; [destruct ss; reflexivity|discriminate].
Qed.
End model_requests.

(** X12.  Whatever the state and the outcome, the requests
    [generate_counterfactuals] sends to the model are the sentences of an
    initial segment of [self.sentences], in order, each asked once and for
    exactly one perturbation; when the call returns normally the segment is
    the whole list. *)
Theorem generate_counterfactuals_requests {E : Type} `{!Environment E}
    (st : State E) :
  let r := generate_counterfactuals st in
  ∃ k, k ≤ length (sentences (self st)) ∧
       requests (world r.1)
       = requests (world st)
         ++ map (λ s, (s, 1%Z)) (take k (sentences (self st))) ∧
       (r.2 = Ok tt → k = length (sentences (self st))).
Proof.
  cbv zeta. rewrite generate_counterfactuals_unfold.
  destruct (for_each_sentence_requests (sentences (self st))
              (mkState (self st) (log generating (world st))))
    as (k & Hk & Hreq & Hok).
  exists k. split; [exact Hk|]. split; [|exact Hok].
  rewrite Hreq. f_equal. unfold requests. simpl. rewrite omap_app.
  apply app_nil_r.
Qed.

Lemma generate_counterfactuals_requests_witness :
  ∃ k, k ≤ length (sentences (self patched_state)) ∧
       requests (world (generate_counterfactuals patched_state).1)
       = requests (world patched_state)
         ++ map (λ s, (s, 1%Z)) (take k (sentences (self patched_state))) ∧
       ((generate_counterfactuals patched_state).2 = Ok tt →
        k = length (sentences (self patched_state))).
Proof. exact (generate_counterfactuals_requests patched_state). Defined.

Lemma export_to_csv_outcome_witness :
  (export_to_csv ready_to_export).2 = Ok tt.
Proof.
  apply (proj2 (proj1 (proj2 (export_to_csv_outcome ready_to_export)))).
  split; [eexists; reflexivity|reflexivity].
Defined.
